(** * Pull-request size labelling script

    A shallow embedding of [.github/scripts/about-pr-test.js]: the table
    [sizeCutoffs], the two asynchronous functions [getPullRequestSize] and
    [labelPullRequestWithSize], and the top-level async function that reads
    the environment and drives them.

    JavaScript numbers that the script compares are pull-request counts
    (integers far below 2^53, where IEEE doubles are exact) and the constant
    [Infinity]; they are modelled by [Z] and by [number].  Awaited requests
    are modelled by a state-and-exception monad over the remote service. *)

From stdpp Require Import gmap strings list.

Set Warnings "-clear-no-such-hyp".

Local Open Scope string_scope.
Local Open Scope list_scope.
Local Open Scope Z_scope.

(** ** The threshold table *)

(** A threshold is a finite count or [Infinity]. *)
Inductive number : Set :=
| Num (z : Z)
| Infinity.

(** [x <= m] for an integer [x] and a threshold [m]. *)
Definition number_le (x : Z) (m : number) : bool :=
  match m with
  | Num z => bool_decide (x ≤ z)%Z
  | Infinity => true
  end.

Record cutoff : Set := { maxFiles : number; maxLines : number }.

(** The object literal [sizeCutoffs]; its own string keys are enumerated in
    insertion order, which the association list keeps. *)
Definition sizeCutoffs : list (string * cutoff) :=
  [ ("tiny",   {| maxFiles := Num 4; maxLines := Num 9 |});
    ("small",  {| maxFiles := Num 9; maxLines := Num 49 |});
    ("medium", {| maxFiles := Num 9; maxLines := Num 249 |});
    ("large",  {| maxFiles := Infinity; maxLines := Infinity |}) ].

(** [Object.keys(sizeCutoffs)] *)
Definition allSizes : list string := sizeCutoffs.*1.

(** [xs.includes(x)] on an array of strings. *)
Definition includes (xs : list string) (x : string) : bool :=
  bool_decide (x ∈ xs).

(** The loop of [getPullRequestSize] over [Object.entries(sizeCutoffs)]:
    the first entry that admits both counts is returned; falling off the end
    of the loop makes the function return [undefined], here [None]. *)
Fixpoint sizeLoop (entries : list (string * cutoff))
    (numberFilesChanged numberLinesChanged : Z) : option string :=
  match entries with
  | [] => None
  | (size, c) :: rest =>
      if number_le numberFilesChanged (maxFiles c)
         && number_le numberLinesChanged (maxLines c)
      then Some size
      else sizeLoop rest numberFilesChanged numberLinesChanged
  end.

(** ** Requests, responses and exceptions *)

(** The three routes the script requests, with their parameters. *)
Inductive Request : Set :=
| GetPull (owner repo pull_number : string)
| AddLabels (owner repo issue_number : string) (labels : list string)
| RemoveLabel (owner repo issue_number name : string).

(** The fields of the pull-request object that the script reads. *)
Record PullData : Set :=
  { additions : Z; deletions : Z; changed_files : Z }.

(** A label object of the response of the add-labels route. *)
Record Label : Set := { name : string }.

(** What a [throw] carries: an [Error] made by the script, or the error of a
    rejected request. *)
Inductive exn : Set :=
| Error (message : string)
| RequestError (status : Z) (message : string).

(** How an awaited computation completes. *)
Inductive completion (A : Type) : Type :=
| Normal (a : A)
| Throw (e : exn).
Arguments Normal {A} a.
Arguments Throw {A} e.

(** The client object made by [new Octokit({ auth })]. *)
Record Octokit : Set := { auth : string }.

(** The remote service behind [octokit.request], one handler per route.  A
    handler answers from the state [W] of the service and leaves a new
    state; a rejected promise is a [Throw]. *)
Class Service (W : Type) : Type :=
  { pulls_get : Octokit → string → string → string → W → completion PullData * W;
    issues_add_labels :
      Octokit → string → string → string → list string → W → completion (list Label) * W;
    issues_remove_label :
      Octokit → string → string → string → string → W → completion unit * W }.

(** One argument of a [console.error] call. *)
Inductive LogArg : Set :=
| LStr (s : string)
| LErr (e : exn).

Section Script.
Context {W : Type} `{!Service W}.

(** The state a run threads: the remote service, the requests issued so
    far (oldest first) and the lines written by [console.error]. *)
Record Run : Type :=
  { world : W; calls : list Request; stderr : list (list LogArg) }.

Definition M (A : Type) : Type := Run → completion A * Run.

Definition ret {A} (a : A) : M A := λ st, (Normal a, st).

Definition throw {A} (e : exn) : M A := λ st, (Throw e, st).

Definition bind {A B} (m : M A) (k : A → M B) : M B :=
  λ st, match m st with
        | (Normal a, st') => k a st'
        | (Throw e, st') => (Throw e, st')
        end.

(** The state left by a request: it is appended to the requests issued,
    and the service is in its new state. *)
Definition issued (r : Request) (w' : W) (st : Run) : Run :=
  {| world := w'; calls := calls st ++ [r]; stderr := stderr st |}.

(** The state left by a [console.error] call. *)
Definition printed (args : list LogArg) (st : Run) : Run :=
  {| world := world st; calls := calls st; stderr := stderr st ++ [args] |}.

(** [await octokit.request(route, params)]: the request is issued, then
    the service answers. *)
Definition request {A} (r : Request) (handler : W → completion A * W) : M A :=
  λ st, let (res, w') := handler (world st) in (res, issued r w' st).

Definition console_error (args : list LogArg) : M unit :=
  λ st, (Normal tt, printed args st).

(** [for (const x of xs) { await body(x) }] *)
Fixpoint forOf {A} (xs : list A) (body : A → M unit) : M unit :=
  match xs with
  | [] => ret tt
  | x :: rest => bind (body x) (λ _, forOf rest body)
  end.

Definition getPullRequestSize (octokit : Octokit) (prNumber owner repo : string)
    : M (option string) :=
  bind (request (GetPull owner repo prNumber) (pulls_get octokit owner repo prNumber))
    (λ data,
      let numberLinesChanged := deletions data + additions data in
      let numberFilesChanged := changed_files data in
      ret (sizeLoop sizeCutoffs numberFilesChanged numberLinesChanged)).

(** The stale size labels: [allSizes.filter(...)] of the source. *)
Definition labelsToRemove (size : string) (currentLabels : list string) : list string :=
  filter (λ potentialSize,
            negb (bool_decide (potentialSize = size))
            && includes currentLabels potentialSize = true) allSizes.

(** [size] is what [getPullRequestSize] resolved to, so it may be
    [undefined] ([None]); no key of the table is [undefined], and the
    template literal prints it as the word. *)
Definition labelPullRequestWithSize (octokit : Octokit)
    (prNumber owner repo : string) (size : option string) : M unit :=
  match size with
  | None => throw (Error "Invalid size label: undefined")
  | Some size =>
      if negb (includes allSizes size)
      then throw (Error ("Invalid size label: " +:+ size))
      else
        bind (request (AddLabels owner repo prNumber [size])
                (issues_add_labels octokit owner repo prNumber [size]))
          (λ data,
            let currentLabels := name <$> data in
            forOf (labelsToRemove size currentLabels)
              (λ label,
                request (RemoveLabel owner repo prNumber label)
                  (issues_remove_label octokit owner repo prNumber label)))
  end.

(** [!v] for a value read from [process.env]: unset ([undefined]) and the
    empty string are the falsy ones. *)
Definition falsy (v : option string) : bool :=
  match v with
  | None => true
  | Some s => bool_decide (s = "")
  end.

(** The body of the [try] block. *)
Definition tryBody (octokit : Octokit) (PR_NUMBER REPO_OWNER REPO_NAME : string)
    : M unit :=
  bind (getPullRequestSize octokit PR_NUMBER REPO_OWNER REPO_NAME)
    (λ prSize,
      labelPullRequestWithSize octokit PR_NUMBER REPO_OWNER REPO_NAME prSize).

(** A value of [process.env] used as a string past the guard of [main],
    where it is known to be set. *)
Definition text (v : option string) : string := default "" v.

(** The top-level async function.  The result is the exit status of the
    process: [process.exit(1)] ends it at once, and a run that reaches the
    end of the function exits with status 0. *)
Definition main (env : gmap string string) (st : Run) : Z * Run :=
  let TOKEN := env !! "TOKEN" in
  let REPO_OWNER := env !! "REPO_OWNER" in
  let REPO_NAME := env !! "REPO_NAME" in
  let PR_NUMBER := env !! "PR_NUMBER" in
  if falsy TOKEN || falsy REPO_OWNER || falsy REPO_NAME || falsy PR_NUMBER
  then
    let (_, st1) := console_error [LStr "Missing required environment variables."] st in
    (1, st1)
  else
    let octokit := {| auth := text TOKEN |} in
    match tryBody octokit (text PR_NUMBER) (text REPO_OWNER) (text REPO_NAME) st with
    | (Normal _, st1) => (0, st1)
    | (Throw error, st1) =>
        let (_, st2) :=
          console_error [LStr "Error processing the pull request:"; LErr error] st1 in
        (1, st2)
    end.

(** A process starts with nothing requested and nothing printed. *)
Definition start (w : W) : Run := {| world := w; calls := []; stderr := [] |}.

End Script.

Arguments Run W : clear implicits.
Arguments M W A : clear implicits.

(** ** The hosted service

    The script's only collaborator is the hosted API, which is not part of
    the repository.  Statements about the labels that end up on the pull
    request are made against this reference model of its three routes: the
    pull request carries its statistics and the list of its label names;
    adding a label that is already there changes nothing, and the route
    answers with the resulting labels; removing a label takes it off.  [faults] schedules the outcome of the coming requests, oldest
    first: [true] rejects the request and leaves the labels as they are. *)
Record GitHub : Set :=
  { stats : PullData; labels : list string; faults : list bool }.

Definition rejected : exn := RequestError 500 "request rejected".

(** The service after it has answered [n] requests and holds labels [ls]. *)
Definition answered (n : nat) (ls : list string) (g : GitHub) : GitHub :=
  {| stats := stats g; labels := ls; faults := drop n (faults g) |}.

(** One request against the label store. *)
Definition serve {A} (apply : PullData → list string → A * list string) (g : GitHub)
    : completion A * GitHub :=
  match faults g with
  | true :: _ => (Throw rejected, answered 1 (labels g) g)
  | _ =>
      let (a, ls) := apply (stats g) (labels g) in
      (Normal a, answered 1 ls g)
  end.

Definition addLabel (ls : list string) (l : string) : list string :=
  if bool_decide (l ∈ ls) then ls else ls ++ [l].

Definition removeLabel (l : string) (ls : list string) : list string :=
  filter (λ x, x ≠ l) ls.

#[export] Instance github : Service GitHub :=
  {| pulls_get _ _ _ _ := serve (λ pr ls, (pr, ls));
     issues_add_labels _ _ _ _ new :=
       serve (λ _ ls, let ls' := foldl addLabel ls new in (Build_Label <$> ls', ls'));
     issues_remove_label _ _ _ _ l := serve (λ _ ls, (tt, removeLabel l ls)) |}.

(** A service that rejects nothing. *)
Definition reliable (pr : PullData) (ls : list string) : GitHub :=
  {| stats := pr; labels := ls; faults := [] |}.

(** The position of the first rejected request of a schedule. *)
Fixpoint firstFault (fs : list bool) : option nat :=
  match fs with
  | [] => None
  | true :: _ => Some 0%nat
  | false :: fs => S <$> firstFault fs
  end.

(** The labels left when the labels [xs] have been removed one by one. *)
Definition removeLabels (xs : list string) (ls : list string) : list string :=
  foldl (λ ls l, removeLabel l ls) ls xs.

(** ** Sample data

    A client, a pull request and an environment on which the statements
    below are instantiated. *)

Definition sample_octokit : Octokit := {| auth := "ghs_0123456789" |}.

Definition sample_pull : PullData :=
  {| additions := 30; deletions := 12; changed_files := 3 |}.

Definition sample_env : gmap string string :=
  <["TOKEN" := "ghs_0123456789"]>
    (<["REPO_OWNER" := "ske-test-org"]>
       (<["REPO_NAME" := "new-test"]> (<["PR_NUMBER" := "42"]> ∅))).

(** A pull request labelled small, medium and bug, on a service that
    answers two requests and rejects the third. *)
Definition sample_flaky : GitHub :=
  {| stats := sample_pull; labels := ["small"; "medium"; "bug"];
     faults := [false; false; true] |}.

(** The same pull request on a service that rejects the first request. *)
Definition sample_down : GitHub :=
  {| stats := sample_pull; labels := ["small"; "medium"; "bug"]; faults := [true] |}.

(** The same pull request on a service that rejects nothing. *)
Definition sample_store : GitHub :=
  reliable sample_pull ["small"; "medium"; "bug"].

(** The run state after large has been reconciled a second time. *)
Definition sample_repeated : Run GitHub :=
  {| world := reliable sample_pull ["bug"; "large"];
     calls := [AddLabels "ske-test-org" "new-test" "42" ["large"]];
     stderr := [] |}.

(** The run state after large has been reconciled on a reliable service
    holding small, medium and bug. *)
Definition sample_reconciled : Run GitHub :=
  {| world := reliable sample_pull ["bug"; "large"];
     calls := [AddLabels "ske-test-org" "new-test" "42" ["large"];
               RemoveLabel "ske-test-org" "new-test" "42" "small";
               RemoveLabel "ske-test-org" "new-test" "42" "medium"];
     stderr := [] |}.

(** The run state of a reconciliation to large that completes after an
    earlier one on [sample_flaky] stopped at the removal of medium. *)
Definition sample_resumed : Run GitHub :=
  {| world := reliable sample_pull ["bug"; "large"];
     calls := [AddLabels "ske-test-org" "new-test" "42" ["large"];
               RemoveLabel "ske-test-org" "new-test" "42" "medium"];
     stderr := [] |}.

(** * Properties *)

(** ** The size classifier *)

Lemma allSizes_eq : allSizes = ["tiny"; "small"; "medium"; "large"].
Proof. reflexivity. Qed.

(** The loop returns at the first admitting entry of any table. *)
Lemma sizeLoop_first entries files lines size :
  sizeLoop entries files lines = Some size ↔
  ∃ pre c post,
    entries = pre ++ (size, c) :: post ∧
    number_le files (maxFiles c) && number_le lines (maxLines c) = true ∧
    Forall (λ e, number_le files (maxFiles e.2) && number_le lines (maxLines e.2) = false) pre.
Proof.
  induction entries as [|[s c] rest IH]; simpl.
  - split; [done|]. intros (pre & c & post & E & _). by destruct pre.
  - destruct (number_le files (maxFiles c) && number_le lines (maxLines c)) eqn:Hfit.
    + split.
      * intros [= <-]. exists [], c, rest. by repeat split.
      * intros ([|[s' c'] pre] & c0 & post & E & Hc & Hpre); simplify_eq/=; [done|].
        apply Forall_cons_1 in Hpre as [Hno _]. simpl in Hno. congruence.
    + rewrite IH. split.
      * intros (pre & c0 & post & -> & Hc & Hpre).
        exists ((s, c) :: pre), c0, post. repeat split; [done|]. by constructor.
      * intros ([|[s' c'] pre] & c0 & post & E & Hc & Hpre); simplify_eq/=; [congruence|].
        apply Forall_cons_1 in Hpre as [_ Hpre]. by exists pre, c0, post.
Qed.

(** The unbounded last entry catches whatever the earlier ones let through. *)
Lemma sizeLoop_sizeCutoffs files lines :
  ∃ label,
    sizeLoop sizeCutoffs files lines = Some label ∧
    label ∈ ["tiny"; "small"; "medium"; "large"].
Proof.
  unfold sizeCutoffs; simpl.
  repeat match goal with
         | |- context [if ?b then _ else _] => destruct b
         end; eexists; (split; [reflexivity|set_solver]).
Qed.

(** C1: for non-negative counts the classifier returns exactly one label,
    a member of tiny, small, medium, large; no input falls off the end of
    the table. *)
Theorem classifier_total (filesChanged linesChanged : Z) :
  0 ≤ filesChanged → 0 ≤ linesChanged →
  exists ! label,
    sizeLoop sizeCutoffs filesChanged linesChanged = Some label ∧
    label ∈ ["tiny"; "small"; "medium"; "large"].
Proof.
  intros _ _.
  destruct (sizeLoop_sizeCutoffs filesChanged linesChanged) as (label & Hl & Hin).
  exists label. split; [done|]. intros l' [Hl' _]. congruence.
Qed.

Lemma classifier_total_witness :
  0 ≤ 7 ∧ 0 ≤ 120 ∧
  exists ! label,
    sizeLoop sizeCutoffs 7 120 = Some label ∧
    label ∈ ["tiny"; "small"; "medium"; "large"].
Proof.
  split; [lia|]. split; [lia|]. apply (classifier_total 7 120); lia.
Defined.

(** C2: the boundary inputs: (4, 9) is tiny, (5, 9) and (9, 49) are small,
    (9, 50) and (9, 249) are medium, (10, 0) is large. *)
Theorem classifier_boundaries :
  sizeLoop sizeCutoffs 4 9 = Some "tiny" ∧
  sizeLoop sizeCutoffs 5 9 = Some "small" ∧
  sizeLoop sizeCutoffs 9 49 = Some "small" ∧
  sizeLoop sizeCutoffs 9 50 = Some "medium" ∧
  sizeLoop sizeCutoffs 9 249 = Some "medium" ∧
  sizeLoop sizeCutoffs 10 0 = Some "large".
Proof. repeat split; vm_compute; reflexivity. Qed.

(** ** The script against any service *)

Section ScriptProps.
Context {W : Type} `{!Service W}.

Implicit Types (st : Run W) (w : W) (octokit : Octokit).

Lemma request_eq {A} (r : Request) (handler : W → completion A * W) st :
  request r handler st = ((handler (world st)).1, issued r (handler (world st)).2 st).
Proof. unfold request. by destruct (handler (world st)). Qed.

Lemma getPullRequestSize_eq octokit prNumber owner repo st :
  getPullRequestSize octokit prNumber owner repo st =
  match pulls_get octokit owner repo prNumber (world st) with
  | (Normal data, w') =>
      (Normal (sizeLoop sizeCutoffs (changed_files data) (deletions data + additions data)),
       issued (GetPull owner repo prNumber) w' st)
  | (Throw e, w') => (Throw e, issued (GetPull owner repo prNumber) w' st)
  end.
Proof.
  unfold getPullRequestSize, bind. rewrite request_eq.
  by destruct (pulls_get _ _ _ _ _) as [[data|e] w'].
Qed.

(** C6: [getPullRequestSize] fetches the pull request once, takes the
    changed-file count and additions + deletions from the answer, walks
    the table in the order tiny, small, medium, large, and resolves to the
    label of the first entry that admits both counts. *)
Theorem getPullRequestSize_first_entry octokit prNumber owner repo st :
  sizeCutoffs.*1 = ["tiny"; "small"; "medium"; "large"] ∧
  match pulls_get octokit owner repo prNumber (world st) with
  | (Normal data, w') =>
      let filesChanged := changed_files data in
      let linesChanged := additions data + deletions data in
      ∃ size pre c post,
        getPullRequestSize octokit prNumber owner repo st =
          (Normal (Some size), issued (GetPull owner repo prNumber) w' st) ∧
        sizeCutoffs = pre ++ (size, c) :: post ∧
        (number_le filesChanged (maxFiles c) = true ∧
         number_le linesChanged (maxLines c) = true) ∧
        ∀ e, e ∈ pre →
             ¬ (number_le filesChanged (maxFiles e.2) = true ∧
                number_le linesChanged (maxLines e.2) = true)
  | (Throw e, w') =>
      getPullRequestSize octokit prNumber owner repo st =
        (Throw e, issued (GetPull owner repo prNumber) w' st)
  end.
Proof.
  split; [reflexivity|].
  rewrite getPullRequestSize_eq.
  destruct (pulls_get _ _ _ _ _) as [[data|e] w']; [|done].
  cbv zeta. rewrite (Z.add_comm (additions data)).
  destruct (sizeLoop sizeCutoffs _ _) as [size|] eqn:Hloop.
  - pose proof Hloop as Hfirst.
    apply sizeLoop_first in Hfirst as (pre & c & post & Htable & Hfit & Hpre).
    exists size, pre, c, post. split; [done|]. split; [done|].
    apply andb_true_iff in Hfit. split; [done|].
    intros e He [Hf Hl]. rewrite Forall_forall in Hpre.
    specialize (Hpre e He). simpl in Hpre. rewrite Hf, Hl in Hpre. done.
  - destruct (sizeLoop_sizeCutoffs (changed_files data) (deletions data + additions data))
      as (label & Hsome & _).
    congruence.
Qed.

(** C4: a size outside tiny, small, medium, large makes
    [labelPullRequestWithSize] throw the invalid-size-label error before
    anything is requested: the run state, and so the remote labels and the
    list of issued requests, is the one it started from. *)
Theorem invalid_size_throws_before_any_request
    octokit prNumber owner repo (size : option string) st :
  (∀ s, size = Some s → s ∉ ["tiny"; "small"; "medium"; "large"]) →
  labelPullRequestWithSize octokit prNumber owner repo size st =
    (Throw (Error ("Invalid size label: " +:+ default "undefined" size)), st).
Proof.
  intros Hout. destruct size as [s|]; simpl; [|done].
  unfold includes. rewrite bool_decide_eq_false_2; [done|].
  rewrite allSizes_eq. by apply Hout.
Qed.

(** The guard at the top of the main function. *)
Lemma main_guard env st :
  falsy (env !! "TOKEN") || falsy (env !! "REPO_OWNER")
    || falsy (env !! "REPO_NAME") || falsy (env !! "PR_NUMBER") = true →
  main env st = (1, printed [LStr "Missing required environment variables."] st).
Proof.
  unfold main. cbv zeta. by intros ->.
Qed.

(** C8: when one of TOKEN, REPO_OWNER, REPO_NAME, PR_NUMBER is absent the
    process exits with status 1, having printed one diagnostic line and
    issued no request. *)
Theorem missing_variable_exits_1 (env : gmap string string) w :
  env !! "TOKEN" = None ∨ env !! "REPO_OWNER" = None ∨
  env !! "REPO_NAME" = None ∨ env !! "PR_NUMBER" = None →
  main env (start w) =
    (1, {| world := w; calls := [];
           stderr := [[LStr "Missing required environment variables."]] |}).
Proof.
  intros Hmiss. rewrite main_guard; [done|].
  destruct Hmiss as [-> | [-> | [-> | ->]]]; simpl;
    by rewrite ?orb_true_r.
Qed.

(** C10: a variable set to the empty string counts as missing: the
    process exits with status 1 and issues no request. *)
Theorem empty_variable_exits_1 (env : gmap string string) w :
  env !! "TOKEN" = Some "" ∨ env !! "REPO_OWNER" = Some "" ∨
  env !! "REPO_NAME" = Some "" ∨ env !! "PR_NUMBER" = Some "" →
  main env (start w) =
    (1, {| world := w; calls := [];
           stderr := [[LStr "Missing required environment variables."]] |}).
Proof.
  intros Hempty. rewrite main_guard; [done|].
  destruct Hempty as [-> | [-> | [-> | ->]]]; simpl;
    by rewrite ?orb_true_r.
Qed.

Lemma forOf_stderr {A} (xs : list A) (r : A → Request)
    (h : A → W → completion unit * W) st res st' :
  forOf xs (λ x, request (r x) (h x)) st = (res, st') → stderr st' = stderr st.
Proof.
  revert st. induction xs as [|x xs IH]; intros st; simpl.
  - by intros [= _ <-].
  - unfold bind. rewrite request_eq.
    destruct (h x (world st)) as [[[]|e] w']; simpl.
    + intros Hrest. by apply IH in Hrest.
    + by intros [= _ <-].
Qed.

Lemma labelPullRequestWithSize_stderr octokit prNumber owner repo size st res st' :
  labelPullRequestWithSize octokit prNumber owner repo size st = (res, st') →
  stderr st' = stderr st.
Proof.
  unfold labelPullRequestWithSize.
  destruct size as [size|]; [|by intros [= _ <-]].
  destruct (negb (includes allSizes size)); [by intros [= _ <-]|].
  unfold bind. rewrite request_eq.
  destruct (issues_add_labels _ _ _ _ _ _) as [[data|e] w']; simpl.
  - intros Hloop. by apply forOf_stderr in Hloop.
  - by intros [= _ <-].
Qed.

Lemma main_guard_passed (env : gmap string string) token repo_owner repo_name pr_number st :
  env !! "TOKEN" = Some token → token ≠ "" →
  env !! "REPO_OWNER" = Some repo_owner → repo_owner ≠ "" →
  env !! "REPO_NAME" = Some repo_name → repo_name ≠ "" →
  env !! "PR_NUMBER" = Some pr_number → pr_number ≠ "" →
  main env st =
    match tryBody {| auth := token |} pr_number repo_owner repo_name st with
    | (Normal _, st1) => (0, st1)
    | (Throw error, st1) =>
        (1, printed [LStr "Error processing the pull request:"; LErr error] st1)
    end.
Proof.
  unfold main. cbv zeta. intros -> Ht -> Ho -> Hn -> Hp. unfold falsy.
  by rewrite !bool_decide_eq_false_2.
Qed.

(** C9: with the four variables set, a failed fetch of the pull request
    ends the run with the fetch as its only request (no label is added or
    removed); an error thrown by the fetch or by the labelling is printed
    and the process exits with status 1; a run in which both complete
    exits with status 0 and prints nothing. *)
Theorem main_error_boundary
    (env : gmap string string) token repo_owner repo_name pr_number w :
  env !! "TOKEN" = Some token → token ≠ "" →
  env !! "REPO_OWNER" = Some repo_owner → repo_owner ≠ "" →
  env !! "REPO_NAME" = Some repo_name → repo_name ≠ "" →
  env !! "PR_NUMBER" = Some pr_number → pr_number ≠ "" →
  let octokit := {| auth := token |} in
  let report e := [LStr "Error processing the pull request:"; LErr e] in
  (∀ e w',
      pulls_get octokit repo_owner repo_name pr_number w = (Throw e, w') →
      main env (start w) =
        (1, {| world := w'; calls := [GetPull repo_owner repo_name pr_number];
               stderr := [report e] |})) ∧
  (∀ e st1,
      getPullRequestSize octokit pr_number repo_owner repo_name (start w) = (Throw e, st1) →
      main env (start w) = (1, printed (report e) st1)) ∧
  (∀ prSize st1 e st2,
      getPullRequestSize octokit pr_number repo_owner repo_name (start w) = (Normal prSize, st1) →
      labelPullRequestWithSize octokit pr_number repo_owner repo_name prSize st1 = (Throw e, st2) →
      main env (start w) = (1, printed (report e) st2)) ∧
  (∀ prSize st1 st2,
      getPullRequestSize octokit pr_number repo_owner repo_name (start w) = (Normal prSize, st1) →
      labelPullRequestWithSize octokit pr_number repo_owner repo_name prSize st1 = (Normal tt, st2) →
      main env (start w) = (0, st2) ∧ stderr st2 = []).
Proof.
  intros Ht Ht' Ho Ho' Hn Hn' Hp Hp' octokit report.
  rewrite (main_guard_passed env token repo_owner repo_name pr_number) by done.
  fold octokit. unfold tryBody, bind.
  split; [|split; [|split]].
  - intros e w' Hget. rewrite getPullRequestSize_eq. simpl. by rewrite Hget.
  - by intros e st1 ->.
  - by intros prSize st1 e st2 -> ->.
  - intros prSize st1 st2 Hsize Hlabel. rewrite Hsize, Hlabel. split; [done|].
    apply labelPullRequestWithSize_stderr in Hlabel. rewrite Hlabel.
    rewrite getPullRequestSize_eq in Hsize. simpl in Hsize.
    destruct (pulls_get _ _ _ _ _) as [[data|e] w']; by simplify_eq.
Qed.

End ScriptProps.

(** ** The script against the label store *)

Section StoreProps.
Implicit Types (g : GitHub) (st : Run GitHub) (octokit : Octokit).
Implicit Types (ls xs : list string) (l size : string).

Lemma elem_of_addLabel ls l x : x ∈ addLabel ls l ↔ x = l ∨ x ∈ ls.
Proof. unfold addLabel. case_bool_decide; set_solver. Qed.

Lemma NoDup_addLabel ls l : NoDup ls → NoDup (addLabel ls l).
Proof.
  unfold addLabel. intros Hnd. case_bool_decide; [done|].
  apply NoDup_app. repeat split; [done| |apply NoDup_singleton]. set_solver.
Qed.

Lemma elem_of_removeLabels xs ls x : x ∈ removeLabels xs ls ↔ x ∈ ls ∧ x ∉ xs.
Proof.
  unfold removeLabels. revert ls. induction xs as [|y xs IH]; intros ls; simpl.
  - set_solver.
  - rewrite IH. unfold removeLabel. rewrite list_elem_of_filter. set_solver.
Qed.

Lemma NoDup_removeLabels xs ls : NoDup ls → NoDup (removeLabels xs ls).
Proof.
  unfold removeLabels. revert ls. induction xs as [|y xs IH]; intros ls Hnd; simpl.
  - done.
  - apply IH. by apply NoDup_filter.
Qed.

Lemma names_of_labels ls : name <$> (Build_Label <$> ls) = ls.
Proof. rewrite <- list_fmap_compose. by rewrite list_fmap_id. Qed.

(** The stale labels do not depend on whether [size] itself is present. *)
Lemma labelsToRemove_addLabel size ls :
  labelsToRemove size (addLabel ls size) = labelsToRemove size ls.
Proof.
  unfold labelsToRemove. apply list_filter_iff. intros x. unfold includes.
  rewrite !andb_true_iff, !negb_true_iff, !bool_decide_eq_false, !bool_decide_eq_true.
  rewrite elem_of_addLabel. naive_solver.
Qed.

Lemma elem_of_labelsToRemove size ls x :
  x ∈ labelsToRemove size ls ↔
  x ∈ ls ∧ x ∈ ["tiny"; "small"; "medium"; "large"] ∧ x ≠ size.
Proof.
  unfold labelsToRemove. rewrite list_elem_of_filter, allSizes_eq. unfold includes.
  rewrite andb_true_iff, negb_true_iff, bool_decide_eq_false, bool_decide_eq_true.
  naive_solver.
Qed.

Lemma NoDup_labelsToRemove size ls : NoDup (labelsToRemove size ls).
Proof.
  unfold labelsToRemove. apply NoDup_filter. rewrite allSizes_eq.
  by apply (bool_decide_unpack _); vm_compute.
Qed.

Lemma answered_answered n m ls ls' g :
  answered n ls (answered m ls' g) = answered (m + n) ls g.
Proof. unfold answered; simpl. by rewrite drop_drop. Qed.

(** The removal loop against the store: it stops at the first rejected
    removal, otherwise it removes every label of [xs]. *)
Lemma removal_loop octokit prNumber owner repo xs st :
  forOf xs (λ label,
      request (RemoveLabel owner repo prNumber label)
        (issues_remove_label octokit owner repo prNumber label)) st =
  let g := world st in
  let sent n := calls st ++ (RemoveLabel owner repo prNumber <$> take n xs) in
  match firstFault (take (length xs) (faults g)) with
  | Some k =>
      (Throw rejected,
       {| world := answered (S k) (removeLabels (take k xs) (labels g)) g;
          calls := sent (S k); stderr := stderr st |})
  | None =>
      (Normal tt,
       {| world := answered (length xs) (removeLabels xs (labels g)) g;
          calls := sent (length xs); stderr := stderr st |})
  end.
Proof.
  revert st. induction xs as [|x xs IH]; intros [g cs err]; simpl.
  - unfold ret, answered; simpl. rewrite drop_0, app_nil_r. by destruct g.
  - unfold bind. rewrite request_eq.
    change (issues_remove_label octokit owner repo prNumber x)
      with (serve (λ _ ls, ((), removeLabel x ls))).
    unfold serve. cbn [world].
    destruct (faults g) as [|[] fs] eqn:Hfs; cbn [fst snd].
    + rewrite IH. cbn [world calls stderr issued answered faults labels stats].
      rewrite Hfs, drop_nil, take_nil. simpl.
      by rewrite answered_answered, <- app_assoc.
    + done.
    + rewrite IH. cbn [world calls stderr issued answered faults labels stats].
      rewrite Hfs. simpl. rewrite drop_0.
      destruct (firstFault (take (length xs) fs)) as [k|]; simpl;
        by rewrite answered_answered, <- app_assoc.
Qed.

(** The whole reconciliation against the store, for a size of the table. *)
Lemma labelPullRequestWithSize_store octokit prNumber owner repo size g :
  size ∈ allSizes →
  labelPullRequestWithSize octokit prNumber owner repo (Some size) (start g) =
  let stale := labelsToRemove size (labels g) in
  let sent n :=
    AddLabels owner repo prNumber [size]
      :: (RemoveLabel owner repo prNumber <$> take n stale) in
  match firstFault (take (S (length stale)) (faults g)) with
  | Some 0%nat =>
      (Throw rejected,
       {| world := answered 1 (labels g) g; calls := sent 0%nat; stderr := [] |})
  | Some (S k) =>
      (Throw rejected,
       {| world := answered (S (S k)) (removeLabels (take k stale) (addLabel (labels g) size)) g;
          calls := sent (S k); stderr := [] |})
  | None =>
      (Normal tt,
       {| world := answered (S (length stale)) (removeLabels stale (addLabel (labels g) size)) g;
          calls := sent (length stale); stderr := [] |})
  end.
Proof.
  intros Hsize. unfold labelPullRequestWithSize, includes.
  rewrite bool_decide_eq_true_2 by done. cbn [negb].
  unfold bind. rewrite request_eq.
  change (issues_add_labels octokit owner repo prNumber [size])
    with (serve (λ _ ls, (Build_Label <$> addLabel ls size, addLabel ls size))).
  unfold serve. cbn [world start].
  destruct (faults g) as [|[] fs] eqn:Hfs; cbn [fst snd].
  - rewrite names_of_labels, labelsToRemove_addLabel, removal_loop.
    cbn [world calls stderr issued answered faults labels stats].
    rewrite Hfs, drop_nil, !take_nil. simpl.
    by rewrite answered_answered.
  - done.
  - rewrite names_of_labels, labelsToRemove_addLabel, removal_loop.
    cbn [world calls stderr issued answered faults labels stats].
    rewrite Hfs. simpl. rewrite drop_0.
    destruct (firstFault (take _ fs)) as [k|]; simpl;
      by rewrite answered_answered.
Qed.

(** The stale labels in the words of the table: the sizes other than
    [size] that are on the pull request, in table order. *)
Lemma labelsToRemove_filter size ls :
  labelsToRemove size ls =
  filter (λ l, l ≠ size ∧ l ∈ ls) ["tiny"; "small"; "medium"; "large"].
Proof.
  unfold labelsToRemove. rewrite allSizes_eq. apply list_filter_iff. intros x.
  unfold includes.
  by rewrite andb_true_iff, negb_true_iff, bool_decide_eq_false, bool_decide_eq_true.
Qed.

Lemma addLabel_present ls l : l ∈ ls → addLabel ls l = ls.
Proof. intros Hin. unfold addLabel. by rewrite bool_decide_eq_true_2. Qed.

Lemma firstFault_quiet n k rest :
  (k < n)%nat → firstFault (take n (replicate k false ++ true :: rest)) = Some k.
Proof.
  revert n. induction k as [|k IH]; intros [|n] Hlt; simpl; try lia; [done|].
  rewrite IH by lia. done.
Qed.

(** After a completed reconciliation no stale size label is left. *)
Lemma labelsToRemove_reconciled size ls :
  labelsToRemove size (removeLabels (labelsToRemove size ls) (addLabel ls size)) = [].
Proof.
  apply elem_of_nil_inv. intros x.
  rewrite elem_of_labelsToRemove, elem_of_removeLabels, elem_of_addLabel,
    elem_of_labelsToRemove.
  naive_solver.
Qed.

(** C3: a reconciliation that completes issues the addition of [size] and
    then one removal for each size label other than [size] that was on the
    pull request, and for no other label; the labels left are the old
    ones and [size] without the removed ones, so labels outside the table
    are untouched.  With small, medium and bug on the pull request and
    large wanted, large is added, small and medium are removed, and large
    and bug are left. *)
Theorem reconcile_removes_stale_sizes octokit prNumber owner repo :
  (∀ size g st',
      size ∈ ["tiny"; "small"; "medium"; "large"] →
      labelPullRequestWithSize octokit prNumber owner repo (Some size) (start g)
        = (Normal tt, st') →
      let stale :=
        filter (λ l, l ≠ size ∧ l ∈ labels g) ["tiny"; "small"; "medium"; "large"] in
      calls st' =
        AddLabels owner repo prNumber [size]
          :: (RemoveLabel owner repo prNumber <$> stale) ∧
      (∀ l, l ∈ labels (world st') ↔ (l = size ∨ l ∈ labels g) ∧ l ∉ stale) ∧
      (∀ l, l ∉ ["tiny"; "small"; "medium"; "large"] →
            (l ∈ labels (world st') ↔ l ∈ labels g))) ∧
  (∀ pr, ∃ st',
      labelPullRequestWithSize octokit prNumber owner repo (Some "large")
        (start (reliable pr ["small"; "medium"; "bug"])) = (Normal tt, st') ∧
      calls st' =
        [AddLabels owner repo prNumber ["large"];
         RemoveLabel owner repo prNumber "small";
         RemoveLabel owner repo prNumber "medium"] ∧
      labels (world st') ≡ₚ ["large"; "bug"]).
Proof.
  split.
  - intros size g st' Hsize Hrun stale.
    rewrite labelPullRequestWithSize_store in Hrun by done. cbv zeta in Hrun.
    destruct (firstFault _) as [[|k]|]; [done..|].
    injection Hrun as <-. cbn [calls world answered labels].
    rewrite firstn_all, labelsToRemove_filter. fold stale.
    split; [done|].
    assert (∀ l, l ∈ removeLabels stale (addLabel (labels g) size)
                 ↔ (l = size ∨ l ∈ labels g) ∧ l ∉ stale) as Hleft.
    { intros l. by rewrite elem_of_removeLabels, elem_of_addLabel. }
    split; [done|].
    intros l Hother. rewrite Hleft. unfold stale. rewrite list_elem_of_filter.
    split; [|naive_solver].
    intros [[->|Hin] _]; [by destruct Hother|done].
  - intros pr.
    exists {| world := reliable pr ["bug"; "large"];
              calls := [AddLabels owner repo prNumber ["large"];
                        RemoveLabel owner repo prNumber "small";
                        RemoveLabel owner repo prNumber "medium"];
              stderr := [] |}.
    split; [by vm_compute|]. split; [done|]. apply Permutation_swap.
Qed.

(** C5: reconciling the same size once more after a completed
    reconciliation leaves the labels as the first run left them: the
    second run only issues the addition, the label is on the pull request
    and is not repeated. *)
Theorem reconcile_idempotent octokit prNumber owner repo size g st1 res st2 :
  size ∈ ["tiny"; "small"; "medium"; "large"] →
  labelPullRequestWithSize octokit prNumber owner repo (Some size) (start g)
    = (Normal tt, st1) →
  labelPullRequestWithSize octokit prNumber owner repo (Some size) (start (world st1))
    = (res, st2) →
  labels (world st2) = labels (world st1) ∧
  calls st2 = [AddLabels owner repo prNumber [size]] ∧
  size ∈ labels (world st2) ∧
  (NoDup (labels g) → NoDup (labels (world st2))).
Proof.
  intros Hsize Hrun1 Hrun2.
  rewrite labelPullRequestWithSize_store in Hrun1 by done. cbv zeta in Hrun1.
  destruct (firstFault _) as [[|k]|]; [done..|].
  injection Hrun1 as <-. cbn [world answered labels] in *.
  set (ls1 := removeLabels (labelsToRemove size (labels g)) (addLabel (labels g) size)) in *.
  assert (size ∈ ls1) as Hin.
  { unfold ls1. rewrite elem_of_removeLabels, elem_of_addLabel, elem_of_labelsToRemove.
    naive_solver. }
  assert (labels (world st2) = ls1 ∧ calls st2 = [AddLabels owner repo prNumber [size]])
    as [Hls Hcalls].
  { assert (labelsToRemove size ls1 = []) as Hnil
      by apply labelsToRemove_reconciled.
    rewrite labelPullRequestWithSize_store in Hrun2 by done.
    cbv zeta in Hrun2. cbn [answered labels faults] in Hrun2.
    change (removeLabels (labelsToRemove size (labels g)) (addLabel (labels g) size))
      with ls1 in Hrun2.
    rewrite !Hnil in Hrun2.
    destruct (firstFault _) as [[|k]|]; injection Hrun2 as <- <-;
      cbn [world calls labels answered]; rewrite ?take_nil; simpl;
      by rewrite ?addLabel_present. }
  rewrite Hls. repeat split; [done..|].
  intros Hnd. by apply NoDup_removeLabels, NoDup_addLabel.
Qed.

(** C7: the addition is the first request and every later request is a
    removal of a stale size label, in table order.  When the removals of
    the first [k] stale labels are answered and the next one is rejected,
    the run throws with that removal as its last request: the added label
    and the removals already made stay, the labels not yet removed are
    still on the pull request, and nothing further is requested. *)
Theorem reconcile_not_atomic octokit prNumber owner repo size g :
  size ∈ ["tiny"; "small"; "medium"; "large"] →
  let stale :=
    filter (λ l, l ≠ size ∧ l ∈ labels g) ["tiny"; "small"; "medium"; "large"] in
  let run :=
    labelPullRequestWithSize octokit prNumber owner repo (Some size) (start g) in
  (∃ j, calls run.2 =
          AddLabels owner repo prNumber [size]
            :: (RemoveLabel owner repo prNumber <$> take j stale)) ∧
  (∀ k rest,
      (k < length stale)%nat →
      faults g = replicate (S k) false ++ true :: rest →
      run.1 = Throw rejected ∧
      calls run.2 =
        AddLabels owner repo prNumber [size]
          :: (RemoveLabel owner repo prNumber <$> take (S k) stale) ∧
      faults (world run.2) = rest ∧
      size ∈ labels (world run.2) ∧
      (∀ l, l ∈ take k stale → l ∉ labels (world run.2)) ∧
      (∀ l, l ∈ drop k stale → l ∈ labels (world run.2)) ∧
      (∀ l, l ∉ stale → l ≠ size → (l ∈ labels (world run.2) ↔ l ∈ labels g))).
Proof.
  intros Hsize stale run. unfold run.
  rewrite labelPullRequestWithSize_store by done. cbv zeta.
  rewrite labelsToRemove_filter. fold stale.
  assert (NoDup stale) as Hnd.
  { unfold stale. rewrite <- labelsToRemove_filter. apply NoDup_labelsToRemove. }
  assert (∀ l, l ∈ stale → l ∈ labels g ∧ l ≠ size) as Hstale.
  { intros l. unfold stale. rewrite list_elem_of_filter. naive_solver. }
  split.
  - destruct (firstFault _) as [[|k]|]; cbn [snd calls]; eauto.
  - intros k rest Hk Hfaults. rewrite Hfaults.
    rewrite firstFault_quiet by lia.
    cbn [fst snd calls world answered labels faults].
    split; [done|]. split; [done|].
    split.
    { rewrite Hfaults, cons_middle, app_assoc. apply drop_app_length'.
      rewrite length_app, length_replicate. simpl. lia. }
    assert (∀ l, l ∈ removeLabels (take k stale) (addLabel (labels g) size)
                 ↔ (l = size ∨ l ∈ labels g) ∧ l ∉ take k stale) as Hleft.
    { intros l. by rewrite elem_of_removeLabels, elem_of_addLabel. }
    split; [|split; [|split]].
    + apply Hleft. split; [by left|].
      intros Hin. apply subseteq_take, Hstale in Hin. naive_solver.
    + intros l Hin. rewrite Hleft. naive_solver.
    + intros l Hin. rewrite Hleft.
      rewrite <- (take_drop k stale) in Hnd. apply NoDup_app in Hnd as (_ & Hdisj & _).
      split; [right; by apply Hstale, (subseteq_drop k)|].
      intros Htake. by apply (Hdisj l).
    + intros l Hl Hne. rewrite Hleft. split; [naive_solver|].
      intros Hin. split; [by right|].
      intros Htake. by apply Hl, (subseteq_take k).
Qed.

End StoreProps.

(** ** Instances *)

Lemma invalid_size_throws_before_any_request_witness :
  (∀ s, Some "huge" = Some s → s ∉ ["tiny"; "small"; "medium"; "large"]) ∧
  labelPullRequestWithSize sample_octokit "42" "ske-test-org" "new-test" (Some "huge")
      (start sample_flaky) =
    (Throw (Error ("Invalid size label: " +:+ default "undefined" (Some "huge"))),
     start sample_flaky).
Proof.
  assert (∀ s, Some "huge" = Some s → s ∉ ["tiny"; "small"; "medium"; "large"]) as Hout.
  { intros s [= <-]. apply (bool_decide_unpack _). vm_compute. exact I. }
  split; [exact Hout|].
  exact (invalid_size_throws_before_any_request sample_octokit "42" "ske-test-org"
           "new-test" (Some "huge") (start sample_flaky) Hout).
Defined.

Lemma missing_variable_exits_1_witness :
  (delete "PR_NUMBER" sample_env !! "TOKEN" = None ∨
   delete "PR_NUMBER" sample_env !! "REPO_OWNER" = None ∨
   delete "PR_NUMBER" sample_env !! "REPO_NAME" = None ∨
   delete "PR_NUMBER" sample_env !! "PR_NUMBER" = None) ∧
  main (delete "PR_NUMBER" sample_env) (start sample_flaky) =
    (1, {| world := sample_flaky; calls := [];
           stderr := [[LStr "Missing required environment variables."]] |}).
Proof.
  assert (delete "PR_NUMBER" sample_env !! "PR_NUMBER" = None) as Hmiss
    by (vm_compute; reflexivity).
  split; [by right; right; right|].
  apply (missing_variable_exits_1 (delete "PR_NUMBER" sample_env) sample_flaky).
  by right; right; right.
Defined.

Lemma empty_variable_exits_1_witness :
  (<["REPO_NAME" := ""]> sample_env !! "TOKEN" = Some "" ∨
   <["REPO_NAME" := ""]> sample_env !! "REPO_OWNER" = Some "" ∨
   <["REPO_NAME" := ""]> sample_env !! "REPO_NAME" = Some "" ∨
   <["REPO_NAME" := ""]> sample_env !! "PR_NUMBER" = Some "") ∧
  main (<["REPO_NAME" := ""]> sample_env) (start sample_flaky) =
    (1, {| world := sample_flaky; calls := [];
           stderr := [[LStr "Missing required environment variables."]] |}).
Proof.
  assert (<["REPO_NAME" := ""]> sample_env !! "REPO_NAME" = Some "") as Hempty
    by (vm_compute; reflexivity).
  split; [by right; right; left|].
  apply (empty_variable_exits_1 (<["REPO_NAME" := ""]> sample_env) sample_flaky).
  by right; right; left.
Defined.

Lemma main_error_boundary_witness :
  (sample_env !! "TOKEN" = Some "ghs_0123456789" ∧ "ghs_0123456789" ≠ "" ∧
   sample_env !! "REPO_OWNER" = Some "ske-test-org" ∧ "ske-test-org" ≠ "" ∧
   sample_env !! "REPO_NAME" = Some "new-test" ∧ "new-test" ≠ "" ∧
   sample_env !! "PR_NUMBER" = Some "42" ∧ "42" ≠ "") ∧
  main sample_env (start sample_down) =
    (1, {| world := answered 1 ["small"; "medium"; "bug"] sample_down;
           calls := [GetPull "ske-test-org" "new-test" "42"];
           stderr := [[LStr "Error processing the pull request:"; LErr rejected]] |}).
Proof.
  assert (sample_env !! "TOKEN" = Some "ghs_0123456789") as Ht by (vm_compute; reflexivity).
  assert (sample_env !! "REPO_OWNER" = Some "ske-test-org") as Ho by (vm_compute; reflexivity).
  assert (sample_env !! "REPO_NAME" = Some "new-test") as Hn by (vm_compute; reflexivity).
  assert (sample_env !! "PR_NUMBER" = Some "42") as Hp by (vm_compute; reflexivity).
  assert ("ghs_0123456789" ≠ "") as Ht' by discriminate.
  assert ("ske-test-org" ≠ "") as Ho' by discriminate.
  assert ("new-test" ≠ "") as Hn' by discriminate.
  assert ("42" ≠ "") as Hp' by discriminate.
  split; [by repeat split|].
  destruct (main_error_boundary sample_env _ _ _ _ sample_down Ht Ht' Ho Ho' Hn Hn' Hp Hp')
    as [Hfetch _].
  apply Hfetch. vm_compute. reflexivity.
Defined.

Lemma reconcile_removes_stale_sizes_witness :
  "large" ∈ ["tiny"; "small"; "medium"; "large"] ∧
  labelPullRequestWithSize sample_octokit "42" "ske-test-org" "new-test" (Some "large")
      (start sample_store) = (Normal tt, sample_reconciled) ∧
  calls sample_reconciled =
    AddLabels "ske-test-org" "new-test" "42" ["large"]
      :: (RemoveLabel "ske-test-org" "new-test" "42" <$>
          filter (λ l, l ≠ "large" ∧ l ∈ labels sample_store)
            ["tiny"; "small"; "medium"; "large"]) ∧
  (∀ l, l ∉ ["tiny"; "small"; "medium"; "large"] →
        (l ∈ labels (world sample_reconciled) ↔ l ∈ labels sample_store)).
Proof.
  assert ("large" ∈ ["tiny"; "small"; "medium"; "large"]) as Hsize.
  { apply (bool_decide_unpack _). vm_compute. exact I. }
  assert (labelPullRequestWithSize sample_octokit "42" "ske-test-org" "new-test"
            (Some "large") (start sample_store) = (Normal tt, sample_reconciled)) as Hrun.
  { vm_compute. reflexivity. }
  destruct (reconcile_removes_stale_sizes sample_octokit "42" "ske-test-org" "new-test")
    as [Hall _].
  destruct (Hall "large" sample_store sample_reconciled Hsize Hrun) as (Hcalls & _ & Hother).
  split; [exact Hsize|]. split; [exact Hrun|]. split; [exact Hcalls|exact Hother].
Defined.

Lemma reconcile_idempotent_witness :
  "large" ∈ ["tiny"; "small"; "medium"; "large"] ∧
  labelPullRequestWithSize sample_octokit "42" "ske-test-org" "new-test" (Some "large")
      (start sample_store) = (Normal tt, sample_reconciled) ∧
  labelPullRequestWithSize sample_octokit "42" "ske-test-org" "new-test" (Some "large")
      (start (world sample_reconciled)) = (Normal tt, sample_repeated) ∧
  labels (world sample_repeated) = labels (world sample_reconciled) ∧
  calls sample_repeated = [AddLabels "ske-test-org" "new-test" "42" ["large"]] ∧
  "large" ∈ labels (world sample_repeated) ∧
  (NoDup (labels sample_store) → NoDup (labels (world sample_repeated))).
Proof.
  assert ("large" ∈ ["tiny"; "small"; "medium"; "large"]) as Hsize.
  { apply (bool_decide_unpack _). vm_compute. exact I. }
  assert (labelPullRequestWithSize sample_octokit "42" "ske-test-org" "new-test"
            (Some "large") (start sample_store) = (Normal tt, sample_reconciled)) as Hrun1.
  { vm_compute. reflexivity. }
  assert (labelPullRequestWithSize sample_octokit "42" "ske-test-org" "new-test"
            (Some "large") (start (world sample_reconciled)) = (Normal tt, sample_repeated))
    as Hrun2.
  { vm_compute. reflexivity. }
  split; [exact Hsize|]. split; [exact Hrun1|]. split; [exact Hrun2|].
  exact (reconcile_idempotent sample_octokit "42" "ske-test-org" "new-test" "large"
           sample_store sample_reconciled (Normal tt) sample_repeated Hsize Hrun1 Hrun2).
Defined.

Lemma reconcile_not_atomic_witness :
  "large" ∈ ["tiny"; "small"; "medium"; "large"] ∧
  (1 < length (filter (λ l, l ≠ "large" ∧ l ∈ labels sample_flaky)
                 ["tiny"; "small"; "medium"; "large"]))%nat ∧
  faults sample_flaky = replicate 2 false ++ true :: [] ∧
  (labelPullRequestWithSize sample_octokit "42" "ske-test-org" "new-test" (Some "large")
     (start sample_flaky)).1 = Throw rejected ∧
  calls (labelPullRequestWithSize sample_octokit "42" "ske-test-org" "new-test"
           (Some "large") (start sample_flaky)).2 =
    AddLabels "ske-test-org" "new-test" "42" ["large"]
      :: (RemoveLabel "ske-test-org" "new-test" "42" <$>
          take 2 (filter (λ l, l ≠ "large" ∧ l ∈ labels sample_flaky)
                    ["tiny"; "small"; "medium"; "large"])).
Proof.
  assert ("large" ∈ ["tiny"; "small"; "medium"; "large"]) as Hsize.
  { apply (bool_decide_unpack _). vm_compute. exact I. }
  assert (1 < length (filter (λ l, l ≠ "large" ∧ l ∈ labels sample_flaky)
                        ["tiny"; "small"; "medium"; "large"]))%nat as Hk
    by (vm_compute; lia).
  assert (faults sample_flaky = replicate 2 false ++ true :: []) as Hfaults by reflexivity.
  destruct (reconcile_not_atomic sample_octokit "42" "ske-test-org" "new-test" "large"
              sample_flaky Hsize) as [_ Hpartial].
  destruct (Hpartial 1%nat [] Hk Hfaults) as (Hthrow & Hcalls & _).
  split; [exact Hsize|]. split; [exact Hk|]. split; [exact Hfaults|].
  split; [exact Hthrow|exact Hcalls].
Defined.

(** * Further properties *)

(** ** The classifier as a partition of the plane *)

(** X1: the four labels as regions of (files, lines): tiny is at most 4
    files and 9 lines; small is at most 9 files and 49 lines outside tiny;
    medium is at most 9 files and between 50 and 249 lines; large is more
    than 9 files or more than 249 lines.  Negative counts fall in tiny. *)
Theorem classifier_regions (files lines : Z) :
  (sizeLoop sizeCutoffs files lines = Some "tiny" ↔ files ≤ 4 ∧ lines ≤ 9) ∧
  (sizeLoop sizeCutoffs files lines = Some "small" ↔
     files ≤ 9 ∧ lines ≤ 49 ∧ ¬ (files ≤ 4 ∧ lines ≤ 9)) ∧
  (sizeLoop sizeCutoffs files lines = Some "medium" ↔ files ≤ 9 ∧ 49 < lines ≤ 249) ∧
  (sizeLoop sizeCutoffs files lines = Some "large" ↔ 9 < files ∨ 249 < lines).
Proof.
  unfold sizeCutoffs, sizeLoop, number_le; cbn [maxFiles maxLines].
  repeat case_bool_decide; cbn [andb];
    (repeat split; intros; try discriminate; try lia).
Qed.

(** X2: the classifier is monotone: when neither count decreases, the
    label does not move to an earlier entry of the table. *)
Theorem classifier_monotone (files lines files' lines' : Z) (size size' : string) :
  files ≤ files' → lines ≤ lines' →
  sizeLoop sizeCutoffs files lines = Some size →
  sizeLoop sizeCutoffs files' lines' = Some size' →
  ∃ i j : nat, allSizes !! i = Some size ∧ allSizes !! j = Some size' ∧ (i ≤ j)%nat.
Proof.
  intros Hf Hl.
  unfold sizeCutoffs, sizeLoop, number_le; cbn [maxFiles maxLines].
  repeat case_bool_decide; cbn [andb]; intros [= <-] [= <-]; try lia;
    let rank i j := solve [exists i, j; repeat split; first [reflexivity | lia]] in
    first [ rank 0%nat 0%nat | rank 0%nat 1%nat | rank 0%nat 2%nat | rank 0%nat 3%nat
          | rank 1%nat 1%nat | rank 1%nat 2%nat | rank 1%nat 3%nat
          | rank 2%nat 2%nat | rank 2%nat 3%nat | rank 3%nat 3%nat ].
Qed.

Lemma classifier_monotone_witness :
  3 ≤ 7 ∧ 20 ≤ 300 ∧
  sizeLoop sizeCutoffs 3 20 = Some "small" ∧
  sizeLoop sizeCutoffs 7 300 = Some "large" ∧
  ∃ i j : nat, allSizes !! i = Some "small" ∧ allSizes !! j = Some "large" ∧ (i ≤ j)%nat.
Proof.
  assert (3 ≤ 7) as Hf by lia.
  assert (20 ≤ 300) as Hl by lia.
  assert (sizeLoop sizeCutoffs 3 20 = Some "small") as H1 by (vm_compute; reflexivity).
  assert (sizeLoop sizeCutoffs 7 300 = Some "large") as H2 by (vm_compute; reflexivity).
  split; [exact Hf|]. split; [exact Hl|]. split; [exact H1|]. split; [exact H2|].
  exact (classifier_monotone 3 20 7 300 "small" "large" Hf Hl H1 H2).
Defined.

(** X3: for any table the loop returns a key of that table, and a table
    with an entry unbounded in both thresholds never lets an input fall
    off its end. *)
Theorem sizeLoop_any_table (entries : list (string * cutoff)) (files lines : Z) :
  (∀ size, sizeLoop entries files lines = Some size → size ∈ entries.*1) ∧
  ((∃ size, (size, {| maxFiles := Infinity; maxLines := Infinity |}) ∈ entries) →
   is_Some (sizeLoop entries files lines)).
Proof.
  split.
  - induction entries as [|[s c] rest IH]; simpl; [done|].
    intros size. destruct (_ && _).
    + intros [= <-]. set_solver.
    + intros Hrest. apply IH in Hrest. set_solver.
  - intros [size Hin].
    induction entries as [|[s c] rest IH]; simpl; [by apply elem_of_nil in Hin|].
    destruct (number_le files (maxFiles c) && number_le lines (maxLines c)) eqn:Hfit; [done|].
    apply elem_of_cons in Hin as [Heq|Hin]; [|by apply IH].
    injection Heq as _ <-. done.
Qed.

Lemma sizeLoop_any_table_witness :
  (∃ size, (size, {| maxFiles := Infinity; maxLines := Infinity |})
             ∈ [("few", {| maxFiles := Num 1; maxLines := Num 1 |});
                ("many", {| maxFiles := Infinity; maxLines := Infinity |})]) ∧
  is_Some (sizeLoop [("few", {| maxFiles := Num 1; maxLines := Num 1 |});
                     ("many", {| maxFiles := Infinity; maxLines := Infinity |})] 8 8).
Proof.
  assert (∃ size, (size, {| maxFiles := Infinity; maxLines := Infinity |})
                    ∈ [("few", {| maxFiles := Num 1; maxLines := Num 1 |});
                       ("many", {| maxFiles := Infinity; maxLines := Infinity |})]) as Hin.
  { exists "many". apply elem_of_cons. right. apply elem_of_cons. left. reflexivity. }
  split; [exact Hin|].
  exact (proj2 (sizeLoop_any_table _ 8 8) Hin).
Defined.

(** ** The requests of a run, against any service *)

Section ScriptRequests.
Context {W : Type} `{!Service W}.

Implicit Types (st : Run W) (w : W) (octokit : Octokit).

(** A loop of requests issues them in order and stops at the first one
    that is rejected. *)
Lemma forOf_calls {A} (xs : list A) (r : A → Request)
    (h : A → W → completion unit * W) st :
  ∃ n : nat,
    (n ≤ length xs)%nat ∧
    calls (forOf xs (λ x, request (r x) (h x)) st).2 = calls st ++ (r <$> take n xs).
Proof.
  revert st. induction xs as [|x xs IH]; intros st; simpl.
  - exists 0%nat. split; [done|]. by rewrite app_nil_r.
  - unfold bind. rewrite request_eq.
    destruct (h x (world st)) as [[[]|e] w']; cbn [fst snd].
    + destruct (IH (issued (r x) w' st)) as (n & Hn & ->).
      exists (S n). split; [lia|]. simpl. by rewrite <- app_assoc.
    + exists 1%nat. split; [lia|]. simpl. by destruct xs.
Qed.

Lemma length_labelsToRemove size cur :
  size ∈ allSizes → (length (labelsToRemove size cur) ≤ 3)%nat.
Proof.
  intros Hsize. unfold labelsToRemove.
  apply Nat.lt_succ_r.
  apply (length_filter_lt _ allSizes size); [done|].
  rewrite andb_true_iff, negb_true_iff, bool_decide_eq_false. naive_solver.
Qed.

(** The requests of [labelPullRequestWithSize], whatever the service
    answers: none for a size outside the table, else the addition and
    then a prefix of the stale labels of the answer. *)
Lemma labelPullRequestWithSize_shape octokit prNumber owner repo size st :
  let out := labelPullRequestWithSize octokit prNumber owner repo size st in
  ((∀ s, size = Some s → s ∉ allSizes) ∧
   out = (Throw (Error ("Invalid size label: " +:+ default "undefined" size)), st)) ∨
  ∃ s cur (n : nat),
    size = Some s ∧ s ∈ allSizes ∧
    calls out.2 =
      calls st ++ AddLabels owner repo prNumber [s]
                    :: (RemoveLabel owner repo prNumber <$> take n (labelsToRemove s cur)) ∧
    (∀ e w', issues_add_labels octokit owner repo prNumber [s] (world st) = (Throw e, w') →
             n = 0%nat ∧ out.1 = Throw e).
Proof.
  unfold labelPullRequestWithSize.
  destruct size as [s|]; [|by left].
  unfold includes. case_bool_decide as Hs; [|left; split; [by intros s' [= <-]|done]].
  right. exists s. cbn [negb]. unfold bind. rewrite request_eq.
  destruct (issues_add_labels _ _ _ _ _ _) as [[data|e] w'] eqn:Hadd; cbn [fst snd].
  - destruct (forOf_calls (labelsToRemove s (name <$> data))
                (RemoveLabel owner repo prNumber)
                (issues_remove_label octokit owner repo prNumber)
                (issued (AddLabels owner repo prNumber [s]) w' st)) as (n & Hn & Hcalls).
    exists (name <$> data), n. split; [done|]. split; [done|].
    split; [|done]. rewrite Hcalls. simpl. by rewrite <- app_assoc.
  - exists [], 0%nat. split; [done|]. split; [done|].
    split; [by rewrite take_0|]. by intros e' w'' [= <- <-].
Qed.

(** Facts about a prefix of the stale labels. *)
Lemma take_labelsToRemove (n : nat) (s : string) (cur : list string) :
  s ∈ allSizes →
  NoDup (take n (labelsToRemove s cur)) ∧
  (length (take n (labelsToRemove s cur)) ≤ 3)%nat ∧
  (∀ l, l ∈ take n (labelsToRemove s cur) →
        l ∈ ["tiny"; "small"; "medium"; "large"] ∧ l ≠ s).
Proof.
  intros Hs. split; [|split].
  - apply (sublist_NoDup _ (labelsToRemove s cur));
      [apply NoDup_labelsToRemove|apply sublist_take].
  - rewrite length_take. pose proof (length_labelsToRemove s cur Hs). lia.
  - intros l Hl. apply subseteq_take, elem_of_labelsToRemove in Hl. naive_solver.
Qed.

Lemma getPullRequestSize_stderr octokit prNumber owner repo st :
  stderr (getPullRequestSize octokit prNumber owner repo st).2 = stderr st.
Proof.
  rewrite getPullRequestSize_eq. by destruct (pulls_get _ _ _ _ _) as [[data|e] w'].
Qed.

(** Past the guard, [main] is the [try] block with its [catch]. *)
Lemma main_unguarded env st :
  falsy (env !! "TOKEN") || falsy (env !! "REPO_OWNER")
    || falsy (env !! "REPO_NAME") || falsy (env !! "PR_NUMBER") = false →
  main env st =
    match tryBody {| auth := text (env !! "TOKEN") |} (text (env !! "PR_NUMBER"))
            (text (env !! "REPO_OWNER")) (text (env !! "REPO_NAME")) st with
    | (Normal _, st1) => (0, st1)
    | (Throw error, st1) =>
        (1, printed [LStr "Error processing the pull request:"; LErr error] st1)
    end.
Proof. unfold main. cbv zeta. by intros ->. Qed.

(** X4: whatever the service answers, [labelPullRequestWithSize] requests
    nothing for a size outside the table, and otherwise the addition of the
    size followed by at most three removals, each of a different table size
    other than the one added; labels outside the table and the added label
    are never removed, and when the addition is rejected nothing is
    removed. *)
Theorem labelPullRequestWithSize_requests octokit prNumber owner repo size st :
  let out := labelPullRequestWithSize octokit prNumber owner repo size st in
  ∃ new,
    calls out.2 = calls st ++ new ∧
    ((new = [] ∧ ∀ s, size = Some s → s ∉ ["tiny"; "small"; "medium"; "large"]) ∨
     ∃ s removed,
       size = Some s ∧ s ∈ ["tiny"; "small"; "medium"; "large"] ∧
       new = AddLabels owner repo prNumber [s]
               :: (RemoveLabel owner repo prNumber <$> removed) ∧
       NoDup removed ∧ (length removed ≤ 3)%nat ∧
       (∀ l, l ∈ removed → l ∈ ["tiny"; "small"; "medium"; "large"] ∧ l ≠ s) ∧
       (∀ e w',
           issues_add_labels octokit owner repo prNumber [s] (world st) = (Throw e, w') →
           removed = [] ∧ out.1 = Throw e)).
Proof.
  cbv zeta.
  destruct (labelPullRequestWithSize_shape octokit prNumber owner repo size st)
    as [[Hout Hinvalid]|(s & cur & n & -> & Hs & Hcalls & Hrejected)].
  - exists []. rewrite Hinvalid, app_nil_r. split; [done|]. left. split; [done|].
    intros s Heq. rewrite <- allSizes_eq. by apply Hout.
  - destruct (take_labelsToRemove n s cur Hs) as (Hnd & Hlen & Hmem).
    eexists. split; [exact Hcalls|]. right.
    exists s, (take n (labelsToRemove s cur)).
    split; [done|]. split; [by rewrite <- allSizes_eq|]. split; [done|].
    split; [done|]. split; [done|]. split; [done|].
    intros e w' Hadd. destruct (Hrejected e w' Hadd) as [-> ->]. by rewrite take_0.
Qed.

(** X5: a run of [main] requests nothing unless TOKEN, REPO_OWNER,
    REPO_NAME and PR_NUMBER are all set and non-empty; otherwise it begins
    with the fetch of the pull request, issues at most four more requests,
    and each of those adds or removes a label of the table on that same
    pull request of that same repository. *)
Theorem main_requests (env : gmap string string) w :
  let guard :=
    falsy (env !! "TOKEN") || falsy (env !! "REPO_OWNER")
      || falsy (env !! "REPO_NAME") || falsy (env !! "PR_NUMBER") in
  let owner := text (env !! "REPO_OWNER") in
  let repo := text (env !! "REPO_NAME") in
  let pr := text (env !! "PR_NUMBER") in
  let cs := calls (main env (start w)).2 in
  (guard = true ∧ cs = []) ∨
  (guard = false ∧
   ∃ rest,
     cs = GetPull owner repo pr :: rest ∧ (length rest ≤ 4)%nat ∧
     ∀ q, q ∈ rest →
          ∃ l, l ∈ ["tiny"; "small"; "medium"; "large"] ∧
               (q = AddLabels owner repo pr [l] ∨ q = RemoveLabel owner repo pr l)).
Proof.
  intros guard owner repo pr cs.
  destruct guard eqn:Hguard; [left|right]; (split; [done|]).
  - unfold cs. by rewrite main_guard.
  - unfold cs. rewrite main_unguarded by done. fold owner repo pr.
    unfold tryBody, bind. rewrite getPullRequestSize_eq. cbn [world start].
    destruct (pulls_get _ _ _ _ _) as [[data|e] w'].
    2:{ exists []. split; [done|]. split; [simpl; lia|].
        by intros q Hq; apply elem_of_nil in Hq. }
    set (st1 := issued (GetPull owner repo pr) w' (start w)).
    set (size := sizeLoop _ _ _).
    destruct (labelPullRequestWithSize_shape {| auth := text (env !! "TOKEN") |}
                pr owner repo size st1)
      as [[_ Hinvalid]|(s & cur & n & _ & Hs & Hcalls & _)].
    + rewrite Hinvalid. exists []. split; [done|]. split; [simpl; lia|].
      by intros q Hq; apply elem_of_nil in Hq.
    + destruct (take_labelsToRemove n s cur Hs) as (_ & Hlen & Hmem).
      destruct (labelPullRequestWithSize _ _ _ _ _ _) as [[[]|e] st2];
        cbn [snd calls printed] in *; rewrite Hcalls;
        (eexists; split; [reflexivity|]; split;
         [simpl; rewrite length_fmap; lia|]);
        intros q [->|Hq]%elem_of_cons;
        try (exists s; split; [by rewrite <- allSizes_eq|by left]);
        apply list_elem_of_fmap in Hq as (l & -> & Hl);
        exists l; (split; [by apply Hmem|by right]).
Qed.

(** X6: [main] exits with status 0 or 1: with 0 only when nothing was
    printed, with 1 only after exactly one diagnostic line, which is the
    missing-variables message or the message that carries the thrown
    error. *)
Theorem main_exit_status (env : gmap string string) w :
  let out := main env (start w) in
  (out.1 = 0 ∧ stderr out.2 = []) ∨
  (out.1 = 1 ∧
   (stderr out.2 = [[LStr "Missing required environment variables."]] ∨
    ∃ e, stderr out.2 = [[LStr "Error processing the pull request:"; LErr e]])).
Proof.
  intros out. unfold out.
  destruct (falsy (env !! "TOKEN") || falsy (env !! "REPO_OWNER")
              || falsy (env !! "REPO_NAME") || falsy (env !! "PR_NUMBER")) eqn:Hguard.
  - right. rewrite main_guard by done. split; [done|]. by left.
  - rewrite main_unguarded by done. unfold tryBody, bind.
    pose proof (getPullRequestSize_stderr {| auth := text (env !! "TOKEN") |}
                  (text (env !! "PR_NUMBER")) (text (env !! "REPO_OWNER"))
                  (text (env !! "REPO_NAME")) (start w)) as Herr1.
    destruct (getPullRequestSize _ _ _ _ _) as [[prSize|e] st1]; cbn [snd] in Herr1.
    + destruct (labelPullRequestWithSize _ _ _ _ _ _) as [[[]|e] st2] eqn:Hlabel;
        apply labelPullRequestWithSize_stderr in Hlabel; [left|right];
        (split; [done|]); cbn [snd stderr printed]; rewrite Hlabel, Herr1; [done|].
      right. by exists e.
    + right. split; [done|]. right. exists e. cbn [snd stderr printed]. by rewrite Herr1.
Qed.

(** X7: the invalid-size error cannot come from the classifier: once the
    guard is passed and the fetch is answered, [main] always goes on to add
    the label that the table gives for the fetched counts. *)
Theorem main_adds_classified_size (env : gmap string string) w data w' :
  falsy (env !! "TOKEN") || falsy (env !! "REPO_OWNER")
    || falsy (env !! "REPO_NAME") || falsy (env !! "PR_NUMBER") = false →
  pulls_get {| auth := text (env !! "TOKEN") |} (text (env !! "REPO_OWNER"))
    (text (env !! "REPO_NAME")) (text (env !! "PR_NUMBER")) w = (Normal data, w') →
  ∃ size removed,
    sizeLoop sizeCutoffs (changed_files data) (deletions data + additions data) = Some size ∧
    calls (main env (start w)).2 =
      GetPull (text (env !! "REPO_OWNER")) (text (env !! "REPO_NAME")) (text (env !! "PR_NUMBER"))
        :: AddLabels (text (env !! "REPO_OWNER")) (text (env !! "REPO_NAME"))
             (text (env !! "PR_NUMBER")) [size]
        :: (RemoveLabel (text (env !! "REPO_OWNER")) (text (env !! "REPO_NAME"))
              (text (env !! "PR_NUMBER")) <$> removed).
Proof.
  intros Hguard Hget. rewrite main_unguarded by done.
  unfold tryBody, bind. rewrite getPullRequestSize_eq. cbn [world start]. rewrite Hget.
  destruct (sizeLoop_sizeCutoffs (changed_files data) (deletions data + additions data))
    as (size & Hsize & Hin).
  rewrite Hsize. exists size.
  destruct (labelPullRequestWithSize_shape {| auth := text (env !! "TOKEN") |}
              (text (env !! "PR_NUMBER")) (text (env !! "REPO_OWNER"))
              (text (env !! "REPO_NAME")) (Some size)
              (issued (GetPull (text (env !! "REPO_OWNER")) (text (env !! "REPO_NAME"))
                         (text (env !! "PR_NUMBER"))) w' (start w)))
    as [[Hout _]|(s & cur & n & [= <-] & Hs & Hcalls & _)].
  - exfalso. apply (Hout size); [done|]. by rewrite allSizes_eq.
  - exists (take n (labelsToRemove size cur)).
    split; [done|].
    destruct (labelPullRequestWithSize _ _ _ _ _ _) as [[[]|e] st2];
      cbn [snd calls printed] in *; by rewrite Hcalls.
Qed.

End ScriptRequests.

(** ** Whole runs against the label store *)

Section StoreRuns.
Implicit Types (g : GitHub) (st : Run GitHub) (octokit : Octokit).
Implicit Types (ls xs : list string) (l size : string).

(** What a run requests and prints does not depend on what was requested
    and printed before it. *)
Lemma forOf_frame {W : Type} `{!Service W} {A} (xs : list A) (r : A → Request)
    (h : A → W → completion unit * W) (st : Run W) :
  forOf xs (λ x, request (r x) (h x)) st =
  let out := forOf xs (λ x, request (r x) (h x)) (start (world st)) in
  (out.1, {| world := world out.2; calls := calls st ++ calls out.2;
             stderr := stderr st ++ stderr out.2 |}).
Proof.
  revert st. induction xs as [|x xs IH]; intros st; simpl.
  - unfold ret; simpl. rewrite !app_nil_r. by destruct st.
  - unfold bind. rewrite !request_eq. cbn [world start].
    destruct (h x (world st)) as [[[]|e] w']; cbn [fst snd].
    + rewrite (IH (issued (r x) w' st)), (IH (issued (r x) w' (start (world st)))).
      cbn [world issued calls stderr start].
      destruct (forOf xs _ (start w')) as [res st']; simpl.
      by rewrite <- app_assoc.
    + unfold issued; simpl. by rewrite app_nil_r.
Qed.

Lemma labelPullRequestWithSize_frame {W : Type} `{!Service W}
    octokit prNumber owner repo (size : option string) (st : Run W) :
  labelPullRequestWithSize octokit prNumber owner repo size st =
  let out := labelPullRequestWithSize octokit prNumber owner repo size (start (world st)) in
  (out.1, {| world := world out.2; calls := calls st ++ calls out.2;
             stderr := stderr st ++ stderr out.2 |}).
Proof.
  assert (st = {| world := world st; calls := calls st ++ []; stderr := stderr st ++ [] |})
    as Hst by (rewrite !app_nil_r; by destruct st).
  unfold labelPullRequestWithSize.
  destruct size as [s|]; [|by rewrite Hst at 1].
  destruct (negb (includes allSizes s)); [by rewrite Hst at 1|].
  unfold bind. rewrite !request_eq. cbn [world start].
  destruct (issues_add_labels _ _ _ _ _ _) as [[data|e] w']; cbn [fst snd].
  - rewrite forOf_frame.
    rewrite (forOf_frame _ _ _ (issued _ w' (start (world st)))).
    cbn [world issued calls stderr start].
    destruct (forOf _ _ (start w')) as [res st']; simpl.
    by rewrite <- app_assoc.
  - unfold issued; simpl. by rewrite app_nil_r.
Qed.

Lemma answered_reliable (n : nat) ls pr ls' :
  answered n ls (reliable pr ls') = reliable pr ls.
Proof. unfold answered, reliable; simpl. by rewrite drop_nil. Qed.

Lemma removeLabels_filter xs ls : removeLabels xs ls = filter (λ x, x ∉ xs) ls.
Proof.
  unfold removeLabels. revert ls. induction xs as [|y xs IH]; intros ls; simpl.
  - induction ls as [|z ls IHls]; [done|].
    rewrite filter_cons_True by set_solver. by f_equal.
  - rewrite IH. unfold removeLabel. rewrite list_filter_filter.
    apply list_filter_iff. set_solver.
Qed.

(** The labels a completed reconciliation to [size] leaves. *)
Lemma reconciled_labels size ls x :
  size ∈ allSizes →
  x ∈ removeLabels (labelsToRemove size ls) (addLabel ls size) ↔
  (x = size ∨ (x ∈ ls ∧ x ∉ allSizes)).
Proof.
  intros Hsize.
  rewrite elem_of_removeLabels, elem_of_addLabel, elem_of_labelsToRemove, <- allSizes_eq.
  split; [|naive_solver].
  intros [[->|Hin] Hnot]; [by left|].
  destruct (decide (x = size)) as [->|Hne]; [by left|].
  right. naive_solver.
Qed.

(** A run of [main] on a service that rejects nothing. *)
Lemma main_reliable (env : gmap string string) pr ls :
  falsy (env !! "TOKEN") || falsy (env !! "REPO_OWNER")
    || falsy (env !! "REPO_NAME") || falsy (env !! "PR_NUMBER") = false →
  ∃ size,
    sizeLoop sizeCutoffs (changed_files pr) (deletions pr + additions pr) = Some size ∧
    size ∈ allSizes ∧
    main env (start (reliable pr ls)) =
      (0, {| world := reliable pr (removeLabels (labelsToRemove size ls) (addLabel ls size));
             calls :=
               GetPull (text (env !! "REPO_OWNER")) (text (env !! "REPO_NAME"))
                 (text (env !! "PR_NUMBER"))
               :: AddLabels (text (env !! "REPO_OWNER")) (text (env !! "REPO_NAME"))
                    (text (env !! "PR_NUMBER")) [size]
               :: (RemoveLabel (text (env !! "REPO_OWNER")) (text (env !! "REPO_NAME"))
                     (text (env !! "PR_NUMBER")) <$> labelsToRemove size ls);
             stderr := [] |}).
Proof.
  intros Hguard.
  destruct (sizeLoop_sizeCutoffs (changed_files pr) (deletions pr + additions pr))
    as (size & Hsize & Hin).
  rewrite <- allSizes_eq in Hin.
  exists size. split; [done|]. split; [done|].
  rewrite main_unguarded by done. unfold tryBody, bind.
  rewrite getPullRequestSize_eq. cbn [world start].
  change (pulls_get _ _ _ _ (reliable pr ls)) with (Normal pr, reliable pr ls).
  cbv iota. rewrite Hsize, labelPullRequestWithSize_frame.
  cbn [world issued]. rewrite labelPullRequestWithSize_store by done.
  cbn [faults reliable labels]. rewrite take_nil. cbn [firstFault].
  cbv zeta. cbn [fst snd world calls stderr issued start].
  by rewrite answered_reliable, firstn_all.
Qed.

(** Reconciling from a state in which some of the stale labels are already
    gone leaves the same labels as reconciling from the start. *)
Lemma reconcile_prefix (k : nat) size ls :
  size ∈ allSizes →
  let partial := removeLabels (take k (labelsToRemove size ls)) (addLabel ls size) in
  removeLabels (labelsToRemove size partial) (addLabel partial size) =
  removeLabels (labelsToRemove size ls) (addLabel ls size).
Proof.
  intros Hsize partial.
  assert (∀ x, x ∈ partial ↔ (x = size ∨ x ∈ ls) ∧ x ∉ take k (labelsToRemove size ls))
    as Hpartial.
  { intros x. unfold partial. by rewrite elem_of_removeLabels, elem_of_addLabel. }
  assert (∀ x, x ∈ labelsToRemove size ls → x ∈ ls ∧ x ≠ size) as Hstale.
  { intros x. rewrite elem_of_labelsToRemove. naive_solver. }
  assert (size ∈ partial) as Hin.
  { apply Hpartial. split; [by left|].
    intros Htake%subseteq_take%Hstale. naive_solver. }
  rewrite (addLabel_present partial) by done.
  rewrite !removeLabels_filter.
  trans (filter (λ x, x ∉ labelsToRemove size partial)
           (filter (λ x, x ∉ take k (labelsToRemove size ls)) (addLabel ls size))).
  { f_equal. apply removeLabels_filter. }
  rewrite list_filter_filter.
  apply list_filter_iff. intros x. split.
  - intros [Hnot2 Hnotk] Hx. apply Hnot2.
    apply elem_of_labelsToRemove. apply elem_of_labelsToRemove in Hx as (Hls & Htab & Hne).
    split; [|done]. apply Hpartial. naive_solver.
  - intros Hnot. split.
    + intros (Hp & Htab & Hne)%elem_of_labelsToRemove. apply Hnot.
      apply elem_of_labelsToRemove. apply Hpartial in Hp. naive_solver.
    + intros Htake%subseteq_take. done.
Qed.

(** The labels a run can leave on the store, whatever is rejected. *)
Lemma labelPullRequestWithSize_store_labels octokit prNumber owner repo size g :
  size ∈ allSizes →
  let final :=
    labels (world (labelPullRequestWithSize octokit prNumber owner repo (Some size)
                     (start g)).2) in
  final = labels g ∨
  ∃ k : nat,
    final = removeLabels (take k (labelsToRemove size (labels g))) (addLabel (labels g) size).
Proof.
  intros Hsize. cbv zeta. rewrite labelPullRequestWithSize_store by done. cbv zeta.
  destruct (firstFault _) as [[|k]|]; cbn [snd world answered labels].
  - by left.
  - right. by exists k.
  - right. exists (length (labelsToRemove size (labels g))). by rewrite firstn_all.
Qed.

(** X8: with the four variables set and a service that rejects nothing,
    [main] exits with status 0 and prints nothing, and afterwards the pull
    request carries exactly one label of the table, the one the table gives
    for its counts; labels outside the table are as before, and no label
    is repeated if none was. *)
Theorem main_leaves_one_size_label (env : gmap string string) pr ls :
  falsy (env !! "TOKEN") || falsy (env !! "REPO_OWNER")
    || falsy (env !! "REPO_NAME") || falsy (env !! "PR_NUMBER") = false →
  let out := main env (start (reliable pr ls)) in
  out.1 = 0 ∧ stderr out.2 = [] ∧
  ∃ size,
    sizeLoop sizeCutoffs (changed_files pr) (additions pr + deletions pr) = Some size ∧
    (∀ l, l ∈ ["tiny"; "small"; "medium"; "large"] →
          (l ∈ labels (world out.2) ↔ l = size)) ∧
    (∀ l, l ∉ ["tiny"; "small"; "medium"; "large"] →
          (l ∈ labels (world out.2) ↔ l ∈ ls)) ∧
    (NoDup ls → NoDup (labels (world out.2))).
Proof.
  intros Hguard. cbv zeta.
  destruct (main_reliable env pr ls Hguard) as (size & Hsize & Hin & ->).
  cbn [fst snd world stderr labels reliable].
  split; [done|]. split; [done|]. exists size.
  split; [by rewrite Z.add_comm|].
  rewrite <- allSizes_eq.
  split; [|split].
  - intros l Hl. rewrite reconciled_labels by done. naive_solver.
  - intros l Hl. rewrite reconciled_labels by done. naive_solver.
  - intros Hnd. by apply NoDup_removeLabels, NoDup_addLabel.
Qed.

(** X9: running [main] again on the pull request it has just labelled (same
    counts, nothing rejected) fetches, adds the same label and removes
    nothing; the labels stay as the first run left them. *)
Theorem main_rerun_changes_nothing (env : gmap string string) pr ls :
  falsy (env !! "TOKEN") || falsy (env !! "REPO_OWNER")
    || falsy (env !! "REPO_NAME") || falsy (env !! "PR_NUMBER") = false →
  let first := main env (start (reliable pr ls)) in
  let second := main env (start (world first.2)) in
  second.1 = 0 ∧
  labels (world second.2) = labels (world first.2) ∧
  ∃ size,
    calls second.2 =
      [GetPull (text (env !! "REPO_OWNER")) (text (env !! "REPO_NAME"))
         (text (env !! "PR_NUMBER"));
       AddLabels (text (env !! "REPO_OWNER")) (text (env !! "REPO_NAME"))
         (text (env !! "PR_NUMBER")) [size]].
Proof.
  intros Hguard. cbv zeta.
  destruct (main_reliable env pr ls Hguard) as (size & Hsize & Hin & ->).
  cbn [snd world].
  destruct (main_reliable env pr
              (removeLabels (labelsToRemove size ls) (addLabel ls size)) Hguard)
    as (size' & Hsize' & _ & ->).
  assert (size' = size) as -> by congruence.
  cbn [fst snd world calls labels reliable].
  rewrite labelsToRemove_reconciled. cbn [removeLabels foldl fmap list_fmap].
  split; [done|]. split; [|by exists size].
  apply addLabel_present, reconciled_labels; [done|by left].
Qed.

(** X10: a reconciliation that ends early, because the addition or one of
    the removals was rejected, is made good by the next one that completes:
    the labels are then the ones a run without rejections would have left. *)
Theorem reconcile_resumes_after_failure octokit prNumber owner repo size g st2 :
  size ∈ ["tiny"; "small"; "medium"; "large"] →
  let first :=
    labelPullRequestWithSize octokit prNumber owner repo (Some size) (start g) in
  labelPullRequestWithSize octokit prNumber owner repo (Some size) (start (world first.2))
    = (Normal tt, st2) →
  labels (world st2) =
  labels (world (labelPullRequestWithSize octokit prNumber owner repo (Some size)
                   (start (reliable (stats g) (labels g)))).2).
Proof.
  rewrite <- allSizes_eq. intros Hsize first Hsecond.
  rewrite (labelPullRequestWithSize_store _ _ _ _ _ (reliable _ _)) by done.
  cbv zeta. cbn [faults reliable labels]. rewrite take_nil.
  cbn [firstFault snd world answered labels].
  rewrite labelPullRequestWithSize_store in Hsecond by done. cbv zeta in Hsecond.
  destruct (firstFault _) as [[|k]|]; [done..|].
  injection Hsecond as <-. cbn [world answered labels]. subst first.
  destruct (labelPullRequestWithSize_store_labels octokit prNumber owner repo size g Hsize)
    as [->|[k ->]]; [done|].
  by apply reconcile_prefix.
Qed.

(** X11: whatever the service rejects, a reconciliation to a table size only
    ever adds that size and only ever takes off other table sizes: labels
    outside the table stay, the pull request is either as it was or carries
    the size, and no label gets repeated. *)
Theorem reconcile_touches_only_sizes octokit prNumber owner repo size g :
  size ∈ ["tiny"; "small"; "medium"; "large"] →
  let final :=
    labels (world (labelPullRequestWithSize octokit prNumber owner repo (Some size)
                     (start g)).2) in
  (∀ l, l ∈ final → l = size ∨ l ∈ labels g) ∧
  (∀ l, l ∈ labels g → l ∉ final →
        l ∈ ["tiny"; "small"; "medium"; "large"] ∧ l ≠ size) ∧
  (final = labels g ∨ size ∈ final) ∧
  (NoDup (labels g) → NoDup final).
Proof.
  rewrite <- allSizes_eq. intros Hsize. cbv zeta.
  destruct (labelPullRequestWithSize_store_labels octokit prNumber owner repo size g Hsize)
    as [->|[k ->]].
  { split; [by right|]. split; [done|]. split; [by left|done]. }
  assert (∀ x, x ∈ take k (labelsToRemove size (labels g)) →
               x ∈ labels g ∧ x ∈ allSizes ∧ x ≠ size) as Hstale.
  { intros x Hx%subseteq_take%elem_of_labelsToRemove. by rewrite allSizes_eq. }
  split; [|split; [|split]].
  - intros l. rewrite elem_of_removeLabels, elem_of_addLabel. naive_solver.
  - intros l Hl Hgone. rewrite elem_of_removeLabels, elem_of_addLabel in Hgone.
    destruct (decide (l ∈ take k (labelsToRemove size (labels g)))) as [Hin|Hout].
    + apply Hstale in Hin. naive_solver.
    + destruct Hgone. split; [by right|done].
  - right. rewrite elem_of_removeLabels, elem_of_addLabel. split; [by left|].
    intros Hin%Hstale. naive_solver.
  - intros Hnd. by apply NoDup_removeLabels, NoDup_addLabel.
Qed.

End StoreRuns.

(** ** Instances of the further properties *)

Lemma main_adds_classified_size_witness :
  falsy (sample_env !! "TOKEN") || falsy (sample_env !! "REPO_OWNER")
    || falsy (sample_env !! "REPO_NAME") || falsy (sample_env !! "PR_NUMBER") = false ∧
  pulls_get {| auth := text (sample_env !! "TOKEN") |} (text (sample_env !! "REPO_OWNER"))
    (text (sample_env !! "REPO_NAME")) (text (sample_env !! "PR_NUMBER")) sample_store
    = (Normal sample_pull, sample_store) ∧
  ∃ size removed,
    sizeLoop sizeCutoffs (changed_files sample_pull)
      (deletions sample_pull + additions sample_pull) = Some size ∧
    calls (main sample_env (start sample_store)).2 =
      GetPull (text (sample_env !! "REPO_OWNER")) (text (sample_env !! "REPO_NAME"))
        (text (sample_env !! "PR_NUMBER"))
        :: AddLabels (text (sample_env !! "REPO_OWNER")) (text (sample_env !! "REPO_NAME"))
             (text (sample_env !! "PR_NUMBER")) [size]
        :: (RemoveLabel (text (sample_env !! "REPO_OWNER")) (text (sample_env !! "REPO_NAME"))
              (text (sample_env !! "PR_NUMBER")) <$> removed).
Proof.
  assert (falsy (sample_env !! "TOKEN") || falsy (sample_env !! "REPO_OWNER")
            || falsy (sample_env !! "REPO_NAME") || falsy (sample_env !! "PR_NUMBER") = false)
    as Hguard by (vm_compute; reflexivity).
  assert (pulls_get {| auth := text (sample_env !! "TOKEN") |}
            (text (sample_env !! "REPO_OWNER")) (text (sample_env !! "REPO_NAME"))
            (text (sample_env !! "PR_NUMBER")) sample_store
          = (Normal sample_pull, sample_store)) as Hget by (vm_compute; reflexivity).
  split; [exact Hguard|]. split; [exact Hget|].
  exact (main_adds_classified_size sample_env sample_store sample_pull sample_store
           Hguard Hget).
Defined.

Lemma main_leaves_one_size_label_witness :
  falsy (sample_env !! "TOKEN") || falsy (sample_env !! "REPO_OWNER")
    || falsy (sample_env !! "REPO_NAME") || falsy (sample_env !! "PR_NUMBER") = false ∧
  (main sample_env (start (reliable sample_pull ["small"; "medium"; "bug"]))).1 = 0 ∧
  stderr (main sample_env (start (reliable sample_pull ["small"; "medium"; "bug"]))).2 = [] ∧
  ∃ size,
    sizeLoop sizeCutoffs (changed_files sample_pull)
      (additions sample_pull + deletions sample_pull) = Some size ∧
    (∀ l, l ∈ ["tiny"; "small"; "medium"; "large"] →
          (l ∈ labels (world (main sample_env
                                (start (reliable sample_pull ["small"; "medium"; "bug"]))).2)
           ↔ l = size)) ∧
    (∀ l, l ∉ ["tiny"; "small"; "medium"; "large"] →
          (l ∈ labels (world (main sample_env
                                (start (reliable sample_pull ["small"; "medium"; "bug"]))).2)
           ↔ l ∈ ["small"; "medium"; "bug"])) ∧
    (NoDup ["small"; "medium"; "bug"] →
     NoDup (labels (world (main sample_env
                             (start (reliable sample_pull ["small"; "medium"; "bug"]))).2))).
Proof.
  assert (falsy (sample_env !! "TOKEN") || falsy (sample_env !! "REPO_OWNER")
            || falsy (sample_env !! "REPO_NAME") || falsy (sample_env !! "PR_NUMBER") = false)
    as Hguard by (vm_compute; reflexivity).
  split; [exact Hguard|].
  exact (main_leaves_one_size_label sample_env sample_pull ["small"; "medium"; "bug"] Hguard).
Defined.

Lemma main_rerun_changes_nothing_witness :
  falsy (sample_env !! "TOKEN") || falsy (sample_env !! "REPO_OWNER")
    || falsy (sample_env !! "REPO_NAME") || falsy (sample_env !! "PR_NUMBER") = false ∧
  (main sample_env (start (world (main sample_env (start (reliable sample_pull
                                     ["small"; "medium"; "bug"]))).2))).1 = 0 ∧
  labels (world (main sample_env (start (world (main sample_env (start (reliable sample_pull
                                     ["small"; "medium"; "bug"]))).2))).2) =
  labels (world (main sample_env (start (reliable sample_pull
                                     ["small"; "medium"; "bug"]))).2) ∧
  ∃ size,
    calls (main sample_env (start (world (main sample_env (start (reliable sample_pull
                                     ["small"; "medium"; "bug"]))).2))).2 =
      [GetPull (text (sample_env !! "REPO_OWNER")) (text (sample_env !! "REPO_NAME"))
         (text (sample_env !! "PR_NUMBER"));
       AddLabels (text (sample_env !! "REPO_OWNER")) (text (sample_env !! "REPO_NAME"))
         (text (sample_env !! "PR_NUMBER")) [size]].
Proof.
  assert (falsy (sample_env !! "TOKEN") || falsy (sample_env !! "REPO_OWNER")
            || falsy (sample_env !! "REPO_NAME") || falsy (sample_env !! "PR_NUMBER") = false)
    as Hguard by (vm_compute; reflexivity).
  split; [exact Hguard|].
  exact (main_rerun_changes_nothing sample_env sample_pull ["small"; "medium"; "bug"] Hguard).
Defined.

Lemma reconcile_resumes_after_failure_witness :
  "large" ∈ ["tiny"; "small"; "medium"; "large"] ∧
  labelPullRequestWithSize sample_octokit "42" "ske-test-org" "new-test" (Some "large")
    (start (world (labelPullRequestWithSize sample_octokit "42" "ske-test-org" "new-test"
                     (Some "large") (start sample_flaky)).2))
    = (Normal tt, sample_resumed) ∧
  labels (world sample_resumed) =
  labels (world (labelPullRequestWithSize sample_octokit "42" "ske-test-org" "new-test"
                   (Some "large")
                   (start (reliable (stats sample_flaky) (labels sample_flaky)))).2).
Proof.
  assert ("large" ∈ ["tiny"; "small"; "medium"; "large"]) as Hsize.
  { apply (bool_decide_unpack _). vm_compute. exact I. }
  assert (labelPullRequestWithSize sample_octokit "42" "ske-test-org" "new-test"
            (Some "large")
            (start (world (labelPullRequestWithSize sample_octokit "42" "ske-test-org"
                             "new-test" (Some "large") (start sample_flaky)).2))
          = (Normal tt, sample_resumed)) as Hsecond by (vm_compute; reflexivity).
  split; [exact Hsize|]. split; [exact Hsecond|].
  exact (reconcile_resumes_after_failure sample_octokit "42" "ske-test-org" "new-test"
           "large" sample_flaky sample_resumed Hsize Hsecond).
Defined.

Lemma reconcile_touches_only_sizes_witness :
  "large" ∈ ["tiny"; "small"; "medium"; "large"] ∧
  (∀ l, l ∈ labels (world (labelPullRequestWithSize sample_octokit "42" "ske-test-org"
                             "new-test" (Some "large") (start sample_flaky)).2) →
        l = "large" ∨ l ∈ labels sample_flaky) ∧
  (∀ l, l ∈ labels sample_flaky →
        l ∉ labels (world (labelPullRequestWithSize sample_octokit "42" "ske-test-org"
                             "new-test" (Some "large") (start sample_flaky)).2) →
        l ∈ ["tiny"; "small"; "medium"; "large"] ∧ l ≠ "large").
Proof.
  assert ("large" ∈ ["tiny"; "small"; "medium"; "large"]) as Hsize.
  { apply (bool_decide_unpack _). vm_compute. exact I. }
  destruct (reconcile_touches_only_sizes sample_octokit "42" "ske-test-org" "new-test"
              "large" sample_flaky Hsize) as (Hadded & Hremoved & _).
  split; [exact Hsize|]. split; [exact Hadded|exact Hremoved].
Defined.
